(** * The tamper-detection fragment of the storage command handler

    A shallow embedding of the two listings [war.c] and [war.cpp]: a
    range check on the sector of the current command, the legitimate
    sector read, and, when the tamper flag is set, the wipe of the
    transfer buffer, the string copied over it and the conditional
    write-back.  The fragment's statements become state transformers
    that can fail (a store outside a buffer is undefined in C) and that
    log the storage calls they make. *)

From Stdlib Require Import ZArith String Ascii Lia.
From stdpp Require Import base option list.

Local Open Scope Z_scope.

(** ** Data model *)

(** An [unsigned char]: bytes are integers in [0, 255]. *)
Definition byte := Z.

(** A transfer buffer, [unsigned char *]: the bytes the pointer may
    address. *)
Definition buffer := list byte.

(** The current command, [cur_cmd], with the fields the fragment names. *)
Record command := Command {
  lun : Z;
  sector : Z;
  count : Z;
  data_select : nat;
  data : list buffer;
  last_result : Z
}.

(** A call of one of the two storage functions, with the arguments it was
    given: logical unit, sector number, sector count and the buffer
    pointer, recorded as the index of the buffer in [cur_cmd.data] and the
    bytes it held when the call was made. *)
Inductive call :=
| ReadSectors (unit_id start nsectors : Z) (ptr : nat) (held : buffer)
| WriteSectors (unit_id start nsectors : Z) (ptr : nat) (held : buffer).

(** What the fragment takes from its surroundings: the three size
    constants and the two storage functions, defined elsewhere.  A read
    answers with a result code, the new contents of the buffer and the
    new state of the device; it fills the memory it is handed and never
    resizes it.  A write answers with a result code and the new state of
    the device; its buffer is read only. *)
Class Platform := {
  READ_BUFFER_SIZE : Z;
  WRITE_BUFFER_SIZE : Z;
  SECTOR_SIZE : Z;
  Disk : Type;
  storage_read_sectors : Disk → Z → Z → Z → buffer → Z * buffer * Disk;
  storage_write_sectors : Disk → Z → Z → Z → buffer → Z * Disk;
  storage_read_sectors_length d u s n b :
    length (storage_read_sectors d u s n b).1.2 = length b
}.

(** Modelled from the spec: the macro [MIN] is used by the fragment and
    defined nowhere in the listings; it is the usual two-argument minimum,
    [((a) < (b) ? (a) : (b))], the clamp its two uses apply to the sector
    count. *)
Definition MIN (a b : Z) : Z := if a <? b then a else b.

(** Modelled from the spec: the macro [IF_MD2] is used by the fragment and
    defined nowhere in the listings; the storage functions are described
    as taking a logical unit identifier, sector number, sector count and
    buffer pointer, so [IF_MD2(x,)] supplies [x] as the leading argument. *)
Definition IF_MD2 (x : Z) : Z := x.

(** The string literal of the [strcpy] call, and its bytes. *)
Definition clobber_text : string := "Never gonna let you down."%string.

Definition bytes_of_string (s : string) : list byte :=
  List.map (λ c, Z.of_N (N_of_ascii c)) (list_ascii_of_string s).

(** The bytes [strcpy] stores: the characters and the terminating NUL. *)
Definition with_nul (s : string) : list byte := bytes_of_string s ++ [0].

Section machine.
Context `{Platform}.

(** The variables the fragment reads and writes, the device behind the
    storage functions. *)
Record state := State {
  cur_cmd : command;
  tamperdetected : bool;
  i : Z;
  disk : Disk
}.

(** A statement: it fails where C leaves the behaviour undefined, and
    otherwise gives the next state and the storage calls it made. *)
Definition stmt := state → option (state * list call).

Definition skip : stmt := λ st, Some (st, []).

Definition seq (a b : stmt) : stmt := λ st,
  match a st with
  | Some (st1, t1) =>
      match b st1 with
      | Some (st2, t2) => Some (st2, t1 ++ t2)
      | None => None
      end
  | None => None
  end.

Definition when (c : state → bool) (a : stmt) : stmt := λ st,
  if c st then a st else skip st.

(** [for(...; test; i++) body], with at most [n] turns: the loop ends
    when [test] fails, and is cut short, without a result, when the
    turns run out first. *)
Fixpoint for_loop (n : nat) (test : state → bool) (body : stmt) : stmt :=
  λ st,
    if test st then
      match n with
      | O => None
      | S n' =>
          seq body
            (seq (λ st, Some (State (cur_cmd st) (tamperdetected st)
                                    (i st + 1) (disk st), []))
                 (for_loop n' test body)) st
      end
    else skip st.

(** The selected buffer, [cur_cmd.data[cur_cmd.data_select]]. *)
Definition selected (st : state) : option buffer :=
  data (cur_cmd st) !! data_select (cur_cmd st).

Definition set_selected (b : buffer) (st : state) : state :=
  let c := cur_cmd st in
  State (Command (lun c) (sector c) (count c) (data_select c)
                 (<[data_select c := b]> (data c)) (last_result c))
        (tamperdetected st) (i st) (disk st).

(** [p[k] = v] on a buffer: undefined outside it. *)
Definition store (b : buffer) (k : Z) (v : byte) : option buffer :=
  if (0 <=? k) && (k <? Z.of_nat (length b))
  then Some (<[Z.to_nat k := v]> b) else None.

(** [strcpy(p + k, s)], byte by byte, the NUL last. *)
Fixpoint strcpy_from (k : Z) (b : buffer) (s : list byte) : option buffer :=
  match s with
  | [] => store b k 0
  | c :: s' =>
      match store b k c with
      | Some b' => strcpy_from (k + 1) b' s'
      | None => None
      end
  end.

Definition strcpy (b : buffer) (s : string) : option buffer :=
  strcpy_from 0 b (bytes_of_string s).
End machine.

Arguments state {_}.
Arguments stmt {_}.

Declare Scope stmt_scope.
Delimit Scope stmt_scope with stmt.
Bind Scope stmt_scope with stmt.
Notation "a ;; b" := (seq a b) (at level 100, b at level 200, right associativity) : stmt_scope.

(** ** The fragment of [war.c] *)

Module war_c.
Section fragment.
Context `{Platform}.

(** [if(cur_cmd.sector>=10000 && cur_cmd.sector<48000)
      tamperdetected=true;] *)
Definition range_check : stmt :=
  when (λ st, (sector (cur_cmd st) >=? 10000)
              && (sector (cur_cmd st) <? 48000))
       (λ st, Some (State (cur_cmd st) true (i st) (disk st), [])).

(** [cur_cmd.last_result = storage_read_sectors(IF_MD2(cur_cmd.lun,)
      cur_cmd.sector, MIN(READ_BUFFER_SIZE/SECTOR_SIZE, cur_cmd.count),
      cur_cmd.data[cur_cmd.data_select]);] *)
Definition legitimate_read : stmt := λ st,
  let c := cur_cmd st in
  match selected st with
  | Some b =>
      let n := MIN (READ_BUFFER_SIZE ÷ SECTOR_SIZE) (count c) in
      let '(r, b', d') :=
        storage_read_sectors (disk st) (IF_MD2 (lun c)) (sector c) n b in
      Some (State (Command (lun c) (sector c) (count c) (data_select c)
                           (<[data_select c := b']> (data c)) r)
                  (tamperdetected st) (i st) d',
            [ReadSectors (IF_MD2 (lun c)) (sector c) n (data_select c) b])
  | None => None
  end.

(** [cur_cmd.data[cur_cmd.data_select][i]=0xFF;] *)
Definition wipe_byte : stmt := λ st,
  match selected st with
  | Some b =>
      match store b (i st) 0xFF with
      | Some b' => Some (set_selected b' st, [])
      | None => None
      end
  | None => None
  end.

(** [for(i=0;i<READ_BUFFER_SIZE;i++) ...]: from [i = 0] the test
    [i<READ_BUFFER_SIZE] fails after [READ_BUFFER_SIZE] turns, and at
    once when the constant is not positive. *)
Definition wipe : stmt :=
  ((λ st, Some (State (cur_cmd st) (tamperdetected st) 0 (disk st), []))
   ;; for_loop (Z.to_nat READ_BUFFER_SIZE)
               (λ st, i st <? READ_BUFFER_SIZE) wipe_byte)%stmt.

(** [strcpy(cur_cmd.data[cur_cmd.data_select],
      "Never gonna let you down.");] *)
Definition clobber : stmt := λ st,
  match selected st with
  | Some b =>
      match strcpy b clobber_text with
      | Some b' => Some (set_selected b' st, [])
      | None => None
      end
  | None => None
  end.

(** [storage_write_sectors(IF_MD2(cur_cmd.lun,) cur_cmd.sector,
      MIN(WRITE_BUFFER_SIZE/SECTOR_SIZE, cur_cmd.count),
      cur_cmd.data[cur_cmd.data_select]);], the result dropped. *)
Definition write_back : stmt := λ st,
  let c := cur_cmd st in
  match selected st with
  | Some b =>
      let n := MIN (WRITE_BUFFER_SIZE ÷ SECTOR_SIZE) (count c) in
      let '(_, d') :=
        storage_write_sectors (disk st) (IF_MD2 (lun c)) (sector c) n b in
      Some (State c (tamperdetected st) (i st) d',
            [WriteSectors (IF_MD2 (lun c)) (sector c) n (data_select c) b])
  | None => None
  end.

(** [if(tamperdetected){ ... if(cur_cmd.sector>=48195) ... }] *)
Definition antiforensics : stmt :=
  when tamperdetected
    (wipe ;;
     clobber ;;
     when (λ st, sector (cur_cmd st) >=? 48195) write_back)%stmt.

(** The whole listing. *)
Definition fragment : stmt :=
  (range_check ;; legitimate_read ;; antiforensics)%stmt.
End fragment.
End war_c.

(** ** The fragment of [war.cpp] *)

Module war_cpp.
Section fragment.
Context `{Platform}.

(** [if(cur_cmd.sector>=10000 && cur_cmd.sector<48000)
      tamperdetected=true;] *)
Definition range_check : stmt :=
  when (λ st, (sector (cur_cmd st) >=? 10000)
              && (sector (cur_cmd st) <? 48000))
       (λ st, Some (State (cur_cmd st) true (i st) (disk st), [])).

(** [cur_cmd.last_result = storage_read_sectors(IF_MD2(cur_cmd.lun,)
      cur_cmd.sector, MIN(READ_BUFFER_SIZE/SECTOR_SIZE, cur_cmd.count),
      cur_cmd.data[cur_cmd.data_select]);] *)
Definition legitimate_read : stmt := λ st,
  let c := cur_cmd st in
  match selected st with
  | Some b =>
      let n := MIN (READ_BUFFER_SIZE ÷ SECTOR_SIZE) (count c) in
      let '(r, b', d') :=
        storage_read_sectors (disk st) (IF_MD2 (lun c)) (sector c) n b in
      Some (State (Command (lun c) (sector c) (count c) (data_select c)
                           (<[data_select c := b']> (data c)) r)
                  (tamperdetected st) (i st) d',
            [ReadSectors (IF_MD2 (lun c)) (sector c) n (data_select c) b])
  | None => None
  end.

(** [cur_cmd.data[cur_cmd.data_select][i]=0xFF;] *)
Definition wipe_byte : stmt := λ st,
  match selected st with
  | Some b =>
      match store b (i st) 0xFF with
      | Some b' => Some (set_selected b' st, [])
      | None => None
      end
  | None => None
  end.

(** [for(i=0;i<READ_BUFFER_SIZE;i++) ...]: from [i = 0] the test
    [i<READ_BUFFER_SIZE] fails after [READ_BUFFER_SIZE] turns, and at
    once when the constant is not positive. *)
Definition wipe : stmt :=
  ((λ st, Some (State (cur_cmd st) (tamperdetected st) 0 (disk st), []))
   ;; for_loop (Z.to_nat READ_BUFFER_SIZE)
               (λ st, i st <? READ_BUFFER_SIZE) wipe_byte)%stmt.

(** [strcpy(cur_cmd.data[cur_cmd.data_select],
      "Never gonna let you down.");] *)
Definition clobber : stmt := λ st,
  match selected st with
  | Some b =>
      match strcpy b clobber_text with
      | Some b' => Some (set_selected b' st, [])
      | None => None
      end
  | None => None
  end.

(** [storage_write_sectors(IF_MD2(cur_cmd.lun,) cur_cmd.sector,
      MIN(WRITE_BUFFER_SIZE/SECTOR_SIZE, cur_cmd.count),
      cur_cmd.data[cur_cmd.data_select]);], the result dropped. *)
Definition write_back : stmt := λ st,
  let c := cur_cmd st in
  match selected st with
  | Some b =>
      let n := MIN (WRITE_BUFFER_SIZE ÷ SECTOR_SIZE) (count c) in
      let '(_, d') :=
        storage_write_sectors (disk st) (IF_MD2 (lun c)) (sector c) n b in
      Some (State c (tamperdetected st) (i st) d',
            [WriteSectors (IF_MD2 (lun c)) (sector c) n (data_select c) b])
  | None => None
  end.

(** [if(tamperdetected){ ... if(cur_cmd.sector>=48195) ... }] *)
Definition antiforensics : stmt :=
  when tamperdetected
    (wipe ;;
     clobber ;;
     when (λ st, sector (cur_cmd st) >=? 48195) write_back)%stmt.

(** The whole listing. *)
Definition fragment : stmt :=
  (range_check ;; legitimate_read ;; antiforensics)%stmt.
End fragment.
End war_cpp.

(** ** Either listing, and the states it runs from *)

Inductive source_file := War_c | War_cpp.

Definition pick {A} (f : source_file) (c cpp : A) : A :=
  match f with War_c => c | War_cpp => cpp end.

Section listings.
Context `{Platform}.

Definition range_check f : stmt := pick f war_c.range_check war_cpp.range_check.
Definition legitimate_read f : stmt :=
  pick f war_c.legitimate_read war_cpp.legitimate_read.
Definition wipe f : stmt := pick f war_c.wipe war_cpp.wipe.
Definition clobber f : stmt := pick f war_c.clobber war_cpp.clobber.
Definition write_back f : stmt := pick f war_c.write_back war_cpp.write_back.
Definition antiforensics f : stmt :=
  pick f war_c.antiforensics war_cpp.antiforensics.
Definition fragment f : stmt := pick f war_c.fragment war_cpp.fragment.
End listings.

(** The flag as the wipe tests it, once the range check has run. *)
Definition flag_after_check `{Platform} (f : source_file) (st : state) : bool :=
  match range_check f st with
  | Some (st1, _) => tamperdetected st1
  | None => false
  end.

(** The states from which the listing has defined behaviour:
    [cur_cmd.data_select] names a buffer, and when the flag is up after
    the range check that buffer has room for the [READ_BUFFER_SIZE] bytes
    of the wipe and for the copied string. *)
Definition valid `{Platform} (f : source_file) (st : state) : bool :=
  match selected st with
  | Some b =>
      implb (flag_after_check f st)
            ((Z.to_nat READ_BUFFER_SIZE <=? length b)%nat
             && (length (with_nul clobber_text) <=? length b)%nat)
  | None => false
  end.

(** The storage calls of a run, by kind. *)
Definition is_read (c : call) : bool :=
  match c with ReadSectors _ _ _ _ _ => true | WriteSectors _ _ _ _ _ => false end.

Definition is_write (c : call) : bool :=
  match c with ReadSectors _ _ _ _ _ => false | WriteSectors _ _ _ _ _ => true end.

(** ** A small device to run the listing on

    Sectors of eight bytes kept in an association list, buffers of four
    sectors.  A read lays the sectors over the front of the buffer, a
    write files the front sectors of the buffer under their numbers. *)
Module demo.
Definition sectors := list (Z * buffer).

Fixpoint sector_of (d : sectors) (s : Z) : buffer :=
  match d with
  | [] => replicate 8 0
  | (s', b) :: d' => if s =? s' then b else sector_of d' s
  end.

Definition read (d : sectors) (u s n : Z) (b : buffer) : Z * buffer * sectors :=
  let got := concat (List.map (sector_of d) (seqZ s n)) in
  (0, take (length b) (got ++ drop (length got) b), d).

Definition write (d : sectors) (u s n : Z) (b : buffer) : Z * sectors :=
  (5, List.map (λ k, (s + k, take 8 (drop (Z.to_nat (8 * k)) b))) (seqZ 0 n) ++ d).

Lemma read_length d u s n b : length (read d u s n b).1.2 = length b.
Proof.
  unfold read; simpl.
  rewrite length_take, length_app, length_drop. lia.
Qed.

Definition platform : Platform := {|
  READ_BUFFER_SIZE := 32;
  WRITE_BUFFER_SIZE := 32;
  SECTOR_SIZE := 8;
  Disk := sectors;
  storage_read_sectors := read;
  storage_write_sectors := write;
  storage_read_sectors_length := read_length
|}.

Definition blank : buffer := replicate 32 0.

(** A command on sector [s] for [n] sectors, into the first of two
    blank buffers, the flag as given. *)
Definition command_at (s n : Z) (flag : bool) : @state platform :=
  @State platform (Command 0 s n 0 [blank; blank] 7) flag 0
         [(s, [1; 2; 3; 4; 5; 6; 7; 8])].

(** A read inside the watched window, a read beyond it, and a read
    beyond it with the flag already up. *)
Definition watched : @state platform := command_at 20000 2 false.
Definition beyond : @state platform := command_at 50000 9 false.
Definition flagged : @state platform := command_at 50000 9 true.
End demo.

(** ** Stores into a buffer *)

Lemma store_inside (b : buffer) (k : nat) (v : byte) :
  (k < length b)%nat →
  store b (Z.of_nat k) v = Some (take k b ++ v :: drop (S k) b).
Proof.
  intros Hk. unfold store.
  replace ((0 <=? Z.of_nat k) && (Z.of_nat k <? Z.of_nat (length b))) with true.
  - rewrite Nat2Z.id. f_equal. by apply insert_take_drop.
  - symmetry. apply andb_true_iff. split; [apply Z.leb_le | apply Z.ltb_lt]; lia.
Qed.

Lemma store_outside (b : buffer) (k : Z) (v : byte) :
  Z.of_nat (length b) ≤ k → store b k v = None.
Proof.
  intros Hk. unfold store.
  replace (k <? Z.of_nat (length b)) with false; [by rewrite andb_false_r |].
  symmetry. apply Z.ltb_ge. lia.
Qed.

(** One store moves the boundary between the written front and the
    untouched rest by a byte. *)
Lemma stored_front (b : buffer) (k : nat) (v : byte) :
  (k < length b)%nat →
  take (S k) (take k b ++ v :: drop (S k) b) = take k b ++ [v]
  ∧ drop (S k) (take k b ++ v :: drop (S k) b) = drop (S k) b
  ∧ length (take k b ++ v :: drop (S k) b) = length b.
Proof.
  intros Hk.
  assert (Hlen : length (take k b ++ [v]) = S k).
  { rewrite length_app, length_take. simpl. lia. }
  rewrite (cons_middle v), (assoc_L (++)).
  split; [by apply take_app_length' |].
  split; [by apply drop_app_length' |].
  rewrite length_app, Hlen, length_drop. lia.
Qed.

Lemma strcpy_from_inside (s : list byte) :
  ∀ (b : buffer) (k : nat),
    (k + length s < length b)%nat →
    strcpy_from (Z.of_nat k) b s
    = Some (take k b ++ (s ++ [0]) ++ drop (k + length s + 1) b).
Proof.
  induction s as [|c s IH]; intros b k Hk; simpl in Hk; simpl strcpy_from.
  - rewrite store_inside by lia.
    by replace (k + length (@nil byte) + 1)%nat with (S k) by (simpl; lia).
  - rewrite store_inside by lia.
    destruct (stored_front b k c ltac:(lia)) as (Ht & Hd & Hl).
    replace (Z.of_nat k + 1) with (Z.of_nat (S k)) by lia.
    rewrite IH by (rewrite Hl; lia).
    rewrite Ht, <- (assoc_L (++) (take k b)). simpl.
    replace (S (k + length s + 1)) with (S k + (length s + 1))%nat by lia.
    replace (k + S (length s) + 1)%nat with (S k + (length s + 1))%nat by lia.
    by rewrite <- drop_drop, Hd, drop_drop.
Qed.

Lemma strcpy_inside (b : buffer) (s : string) :
  (length (with_nul s) ≤ length b)%nat →
  strcpy b s = Some (with_nul s ++ drop (length (with_nul s)) b).
Proof.
  unfold strcpy, with_nul. rewrite length_app. simpl. intros Hb.
  rewrite (strcpy_from_inside _ b 0) by (simpl; lia).
  by rewrite take_0.
Qed.

Lemma strcpy_from_outside (s : list byte) :
  ∀ (b : buffer) (k : nat),
    (k ≤ length b)%nat →
    (length b < k + length s + 1)%nat →
    strcpy_from (Z.of_nat k) b s = None.
Proof.
  induction s as [|c s IH]; intros b k Hk Hb; simpl in Hb; simpl strcpy_from.
  - apply store_outside. lia.
  - destruct (decide (k = length b)) as [->|Hne].
    + rewrite store_outside by lia. done.
    + rewrite store_inside by lia.
      destruct (stored_front b k c ltac:(lia)) as (_ & _ & Hl).
      replace (Z.of_nat k + 1) with (Z.of_nat (S k)) by lia.
      apply IH; rewrite Hl; lia.
Qed.

Lemma strcpy_outside (b : buffer) (s : string) :
  (length b < length (with_nul s))%nat → strcpy b s = None.
Proof.
  unfold strcpy, with_nul. rewrite length_app. simpl. intros Hb.
  apply (strcpy_from_outside _ b 0); simpl; lia.
Qed.

(** ** The listing, statement by statement *)

Section run.
Context `{Platform}.

(** The test of the wipe loop at index [k], when [n] more turns reach
    [READ_BUFFER_SIZE]. *)
Lemma wipe_test (k n : nat) :
  (k + n)%nat = Z.to_nat READ_BUFFER_SIZE →
  (Z.of_nat k <? READ_BUFFER_SIZE) = match n with O => false | S _ => true end.
Proof.
  intros Hn. destruct n; [apply Z.ltb_ge | apply Z.ltb_lt]; lia.
Qed.

(** The wipe loop, [n] turns from the end, writes [n] bytes [0xFF] from
    index [i] on, leaves [i] behind them and never runs out of turns. *)
Lemma wipe_loop_runs (n : nat) :
  ∀ (st : state) (b : buffer) (k : nat),
    selected st = Some b →
    i st = Z.of_nat k →
    (k + n)%nat = Z.to_nat READ_BUFFER_SIZE →
    (k + n ≤ length b)%nat →
    for_loop n (λ st, i st <? READ_BUFFER_SIZE) war_c.wipe_byte st
    = Some (State (cur_cmd (set_selected
                              (take k b ++ replicate n 0xFF ++ drop (k + n) b) st))
                  (tamperdetected st) (Z.of_nat (k + n)) (disk st), []).
Proof.
  induction n as [|n IH];
    intros [[u s c sel d r] fl i0 dk] b k Hsel Hi Hn Hlen;
    unfold selected, set_selected in *; simpl in *; subst i0;
    rewrite (wipe_test _ _ Hn).
  - unfold skip. rewrite Nat.add_0_r, take_drop, list_insert_id by done.
    done.
  - unfold seq at 1, war_c.wipe_byte at 1, selected; simpl. rewrite Hsel.
    rewrite store_inside by lia.
    destruct (stored_front b k 0xFF ltac:(lia)) as (Ht & Hd & Hl).
    unfold seq at 1, set_selected; simpl.
    replace (Z.of_nat k + 1) with (Z.of_nat (S k)) by lia.
    erewrite (IH _ _ (S k)); unfold selected; simpl;
      [| apply list_lookup_insert_eq; by eapply lookup_lt_Some
       | done | lia | rewrite Hl; lia ].
    rewrite list_insert_insert_eq, Ht, <- (assoc_L (++) (take k b)).
    rewrite <- (drop_drop _ n (S k)), Hd, drop_drop.
    replace (k + S n)%nat with (S k + n)%nat by lia.
    done.
Qed.

Lemma range_check_runs (st : state) :
  war_c.range_check st
  = Some (State (cur_cmd st)
                (tamperdetected st
                 || ((sector (cur_cmd st) >=? 10000)
                     && (sector (cur_cmd st) <? 48000)))
                (i st) (disk st), []).
Proof.
  unfold war_c.range_check, when, skip. destruct st as [c fl i0 dk]; simpl.
  destruct ((sector c >=? 10000) && (sector c <? 48000)).
  - by rewrite orb_true_r.
  - by rewrite orb_false_r.
Qed.

Lemma wipe_runs (st : state) (b : buffer) :
  selected st = Some b →
  (Z.to_nat READ_BUFFER_SIZE ≤ length b)%nat →
  war_c.wipe st
  = Some (State (cur_cmd (set_selected
                            (replicate (Z.to_nat READ_BUFFER_SIZE) 0xFF
                             ++ drop (Z.to_nat READ_BUFFER_SIZE) b) st))
                (tamperdetected st)
                (Z.of_nat (Z.to_nat READ_BUFFER_SIZE)) (disk st), []).
Proof.
  intros Hsel Hlen. unfold war_c.wipe, seq.
  erewrite (wipe_loop_runs _ _ b 0); [done | done | done | done | simpl; lia].
Qed.

Lemma clobber_runs (st : state) (b : buffer) :
  selected st = Some b →
  (length (with_nul clobber_text) ≤ length b)%nat →
  war_c.clobber st
  = Some (set_selected
            (with_nul clobber_text ++ drop (length (with_nul clobber_text)) b)
            st, []).
Proof.
  intros Hsel Hlen. unfold war_c.clobber. rewrite Hsel.
  by rewrite strcpy_inside.
Qed.

(** The buffer the wipe and the string copy leave, from the bytes the
    read left. *)
Definition clobbered (b : buffer) : buffer :=
  with_nul clobber_text
  ++ drop (length (with_nul clobber_text))
          (replicate (Z.to_nat READ_BUFFER_SIZE) 0xFF
           ++ drop (Z.to_nat READ_BUFFER_SIZE) b).

(** The whole run in closed form. *)
Lemma fragment_runs (st : state) (b : buffer) :
  selected st = Some b →
  let c := cur_cmd st in
  let flag := tamperdetected st
              || ((sector c >=? 10000) && (sector c <? 48000)) in
  let n := MIN (READ_BUFFER_SIZE ÷ SECTOR_SIZE) (count c) in
  let rd := storage_read_sectors (disk st) (IF_MD2 (lun c)) (sector c) n b in
  let m := MIN (WRITE_BUFFER_SIZE ÷ SECTOR_SIZE) (count c) in
  let wr := storage_write_sectors rd.2 (IF_MD2 (lun c)) (sector c) m
                                  (clobbered rd.1.2) in
  (flag = true →
   (Z.to_nat READ_BUFFER_SIZE ≤ length b)%nat
   ∧ (length (with_nul clobber_text) ≤ length b)%nat) →
  war_c.fragment st
  = Some
      (if flag then
         (State (Command (lun c) (sector c) (count c) (data_select c)
                         (<[data_select c := clobbered rd.1.2]> (data c))
                         rd.1.1)
                true (Z.of_nat (Z.to_nat READ_BUFFER_SIZE))
                (if sector c >=? 48195 then wr.2 else rd.2),
          ReadSectors (IF_MD2 (lun c)) (sector c) n (data_select c) b
          :: (if sector c >=? 48195
              then [WriteSectors (IF_MD2 (lun c)) (sector c) m
                                 (data_select c) (clobbered rd.1.2)]
              else []))
       else
         (State (Command (lun c) (sector c) (count c) (data_select c)
                         (<[data_select c := rd.1.2]> (data c)) rd.1.1)
                false (i st) rd.2,
          [ReadSectors (IF_MD2 (lun c)) (sector c) n (data_select c) b])).
Proof.
  intros Hsel c flag n rd m wr Hroom.
  unfold war_c.fragment, war_c.antiforensics. unfold seq at 1.
  rewrite range_check_runs.
  fold c flag. unfold seq at 1, war_c.legitimate_read, selected. simpl.
  fold c. unfold selected in Hsel. fold c in Hsel. rewrite Hsel.
  fold n rd. pose proof (storage_read_sectors_length (disk st) (IF_MD2 (lun c))
                           (sector c) n b) as Hrd. fold rd in Hrd.
  destruct rd as [[r b'] d'] eqn:Erd. simpl in Hrd, wr; simpl.
  assert (Hin : (data_select c < length (data c))%nat)
    by by eapply lookup_lt_Some.
  unfold when at 1. simpl. destruct flag eqn:Eflag; [| done].
  destruct (Hroom eq_refl) as [Hw Hs].
  unfold seq at 1.
  erewrite wipe_runs;
    [| unfold selected; simpl; by apply list_lookup_insert_eq
     | rewrite Hrd; lia ].
  unfold set_selected at 1; simpl. rewrite list_insert_insert_eq.
  unfold seq at 1.
  erewrite clobber_runs;
    [| unfold selected; simpl; by apply list_lookup_insert_eq
     | rewrite length_app, length_replicate, length_drop;
       unfold buffer, byte in *; lia ].
  unfold set_selected at 1; simpl. rewrite list_insert_insert_eq.
  fold (clobbered b'). unfold when, skip; simpl.
  destruct (sector c >=? 48195); [| done].
  unfold war_c.write_back, selected; simpl.
  rewrite list_lookup_insert_eq by done. fold m.
  subst wr. by destruct (storage_write_sectors _ _ _ _ _).
Qed.

(** Where the buffer is too short the wipe, or else the copy, leaves
    it: the run is undefined. *)
Lemma wipe_loop_fails (n : nat) :
  ∀ (st : state) (b : buffer) (k : nat),
    selected st = Some b →
    i st = Z.of_nat k →
    (k + n)%nat = Z.to_nat READ_BUFFER_SIZE →
    (k ≤ length b < k + n)%nat →
    for_loop n (λ st, i st <? READ_BUFFER_SIZE) war_c.wipe_byte st = None.
Proof.
  induction n as [|n IH];
    intros [[u s c sel d r] fl i0 dk] b k Hsel Hi Hn Hlen;
    unfold selected, set_selected in *; simpl in *; subst i0; [lia |].
  rewrite (wipe_test _ _ Hn).
  unfold seq at 1, war_c.wipe_byte at 1, selected; simpl. rewrite Hsel.
  destruct (decide (k = length b)) as [->|Hne].
  - by rewrite store_outside by lia.
  - rewrite store_inside by lia.
    destruct (stored_front b k 0xFF ltac:(lia)) as (_ & _ & Hl).
    unfold seq at 1, set_selected; simpl.
    replace (Z.of_nat k + 1) with (Z.of_nat (S k)) by lia.
    erewrite (IH _ _ (S k)); unfold selected; simpl;
      [ done
      | apply list_lookup_insert_eq; by eapply lookup_lt_Some
      | done | lia | rewrite Hl; lia ].
Qed.

Lemma fragment_fails (st : state) :
  match selected st with
  | Some b =>
      tamperdetected st
      || ((sector (cur_cmd st) >=? 10000) && (sector (cur_cmd st) <? 48000))
      = true
      ∧ ((length b < Z.to_nat READ_BUFFER_SIZE)%nat
         ∨ (length b < length (with_nul clobber_text))%nat)
  | None => True
  end →
  war_c.fragment st = None.
Proof.
  unfold war_c.fragment, war_c.antiforensics. unfold seq at 1.
  rewrite range_check_runs.
  unfold seq at 1, war_c.legitimate_read, selected. simpl.
  destruct (data (cur_cmd st) !! data_select (cur_cmd st)) as [b|] eqn:Hsel;
    [| done].
  intros [Hflag Hshort].
  pose proof (storage_read_sectors_length (disk st) (IF_MD2 (lun (cur_cmd st)))
                (sector (cur_cmd st))
                (MIN (READ_BUFFER_SIZE ÷ SECTOR_SIZE) (count (cur_cmd st))) b)
    as Hrd.
  destruct (storage_read_sectors _ _ _ _ _) as [[r b'] d']. simpl in Hrd; simpl.
  assert (Hin : (data_select (cur_cmd st) < length (data (cur_cmd st)))%nat)
    by by eapply lookup_lt_Some.
  unfold when at 1. simpl. rewrite Hflag.
  destruct (decide (length b < Z.to_nat READ_BUFFER_SIZE)%nat) as [Hw|Hw].
  - unfold seq at 1, war_c.wipe, seq.
    erewrite (wipe_loop_fails _ _ b' 0);
      [ done
      | unfold selected; simpl; by apply list_lookup_insert_eq
      | done
      | done
      | unfold buffer, byte in *; lia ].
  - destruct Hshort as [? | Hs]; [done |].
    unfold seq at 1.
    erewrite wipe_runs;
      [| unfold selected; simpl; by apply list_lookup_insert_eq
       | unfold buffer, byte in *; lia ].
    unfold set_selected at 1; simpl. rewrite list_insert_insert_eq.
    unfold seq at 1, war_c.clobber, selected; simpl.
    rewrite list_lookup_insert_eq by done.
    rewrite strcpy_outside; [done |].
    rewrite length_app, length_replicate, length_drop.
    simpl in Hs |- *. unfold buffer, byte in *; lia.
Qed.
End run.

(** ** Runs of either listing *)

Section runs.
Context `{Platform}.

(** What a run from [st] leaves and calls, [b] being the selected
    buffer on entry. *)
Definition outcome (st : state) (b : buffer) : state * list call :=
  let c := cur_cmd st in
  let n := MIN (READ_BUFFER_SIZE ÷ SECTOR_SIZE) (count c) in
  let rd := storage_read_sectors (disk st) (IF_MD2 (lun c)) (sector c) n b in
  let m := MIN (WRITE_BUFFER_SIZE ÷ SECTOR_SIZE) (count c) in
  let wr := storage_write_sectors rd.2 (IF_MD2 (lun c)) (sector c) m
                                  (clobbered rd.1.2) in
  if tamperdetected st || ((sector c >=? 10000) && (sector c <? 48000)) then
    (State (Command (lun c) (sector c) (count c) (data_select c)
                    (<[data_select c := clobbered rd.1.2]> (data c)) rd.1.1)
           true (Z.of_nat (Z.to_nat READ_BUFFER_SIZE))
           (if sector c >=? 48195 then wr.2 else rd.2),
     ReadSectors (IF_MD2 (lun c)) (sector c) n (data_select c) b
     :: (if sector c >=? 48195
         then [WriteSectors (IF_MD2 (lun c)) (sector c) m
                            (data_select c) (clobbered rd.1.2)]
         else []))
  else
    (State (Command (lun c) (sector c) (count c) (data_select c)
                    (<[data_select c := rd.1.2]> (data c)) rd.1.1)
           false (i st) rd.2,
     [ReadSectors (IF_MD2 (lun c)) (sector c) n (data_select c) b]).

Lemma listings_agree (f : source_file) :
  range_check f = war_c.range_check
  ∧ legitimate_read f = war_c.legitimate_read
  ∧ wipe f = war_c.wipe
  ∧ clobber f = war_c.clobber
  ∧ write_back f = war_c.write_back
  ∧ antiforensics f = war_c.antiforensics
  ∧ fragment f = war_c.fragment.
Proof. by destruct f. Qed.

Lemma flag_after_check_window (f : source_file) (st : state) :
  flag_after_check f st
  = tamperdetected st
    || ((sector (cur_cmd st) >=? 10000) && (sector (cur_cmd st) <? 48000)).
Proof.
  unfold flag_after_check.
  destruct (listings_agree f) as (-> & _). by rewrite range_check_runs.
Qed.

Lemma window_decide (s : Z) :
  (s >=? 10000) && (s <? 48000) = bool_decide (10000 ≤ s < 48000).
Proof.
  rewrite Z.geb_leb. case_bool_decide as Hs.
  - apply andb_true_iff. split; [apply Z.leb_le | apply Z.ltb_lt]; lia.
  - apply andb_false_iff.
    destruct (decide (10000 ≤ s)); [right; apply Z.ltb_ge | left; apply Z.leb_gt];
      lia.
Qed.

Lemma flag_after_check_decide (f : source_file) (st : state) :
  flag_after_check f st
  = if decide (10000 ≤ sector (cur_cmd st) < 48000) then true
    else tamperdetected st.
Proof.
  rewrite flag_after_check_window, window_decide.
  case_bool_decide; case_decide; try done.
  - apply orb_true_r.
  - apply orb_false_r.
Qed.

Lemma valid_room (f : source_file) (st : state) :
  valid f st = true ↔
  ∃ b, selected st = Some b
       ∧ (flag_after_check f st = true →
          (Z.to_nat READ_BUFFER_SIZE ≤ length b)%nat
          ∧ (length (with_nul clobber_text) ≤ length b)%nat).
Proof.
  unfold valid. split.
  - destruct (selected st) as [b|]; [| done]. intros Hv. exists b.
    split; [done |]. intros Hf. rewrite Hf in Hv.
    apply andb_true_iff in Hv as [Hr Hs].
    split; by apply Nat.leb_le.
  - intros (b & -> & Hroom). destruct (flag_after_check f st); [| done].
    destruct (Hroom eq_refl) as [Hr Hs].
    apply andb_true_iff. split; by apply Nat.leb_le.
Qed.

(** From a valid state the listing runs to its outcome. *)
Lemma valid_outcome (f : source_file) (st : state) :
  valid f st = true →
  ∃ b, selected st = Some b ∧ fragment f st = Some (outcome st b).
Proof.
  intros (b & Hsel & Hroom)%valid_room. exists b. split; [done |].
  destruct (listings_agree f) as (_ & _ & _ & _ & _ & _ & ->).
  rewrite flag_after_check_window in Hroom.
  exact (fragment_runs st b Hsel Hroom).
Qed.

(** The valid states are exactly those the listing is defined on. *)
Lemma valid_defined (f : source_file) (st : state) :
  valid f st = true ↔ is_Some (fragment f st).
Proof.
  split.
  - intros (b & _ & ->)%valid_outcome. by eexists.
  - intros Hsome. destruct (valid f st) eqn:Hv; [done | exfalso].
    destruct (listings_agree f) as (_ & _ & _ & _ & _ & _ & Hf).
    rewrite Hf, fragment_fails in Hsome; [by destruct Hsome |].
    unfold valid in Hv. rewrite flag_after_check_window in Hv.
    destruct (selected st) as [b|]; [| done].
    destruct (tamperdetected st || _); [| done]. split; [done |].
    apply andb_false_iff in Hv as [Hv|Hv]; apply Nat.leb_gt in Hv; auto.
Qed.

(** The state the legitimate read leaves, [b] being the selected
    buffer on entry. *)
Definition after_read (f : source_file) (st : state) (b : buffer) : state :=
  let c := cur_cmd st in
  let rd := storage_read_sectors (disk st) (IF_MD2 (lun c)) (sector c)
              (MIN (READ_BUFFER_SIZE ÷ SECTOR_SIZE) (count c)) b in
  State (Command (lun c) (sector c) (count c) (data_select c)
                 (<[data_select c := rd.1.2]> (data c)) rd.1.1)
        (flag_after_check f st) (i st) rd.2.

Lemma read_runs (f : source_file) (st : state) (b : buffer) :
  selected st = Some b →
  (range_check f ;; legitimate_read f)%stmt st
  = Some (after_read f st b,
          [ReadSectors (IF_MD2 (lun (cur_cmd st))) (sector (cur_cmd st))
             (MIN (READ_BUFFER_SIZE ÷ SECTOR_SIZE) (count (cur_cmd st)))
             (data_select (cur_cmd st)) b]).
Proof.
  intros Hsel. unfold after_read. rewrite flag_after_check_window.
  destruct (listings_agree f) as (-> & -> & _).
  unfold seq. rewrite range_check_runs.
  unfold war_c.legitimate_read, selected in *. simpl. rewrite Hsel.
  by destruct (storage_read_sectors _ _ _ _ _) as [[r b'] d'].
Qed.

Lemma after_read_selected (f : source_file) (st : state) (b : buffer) :
  selected st = Some b →
  selected (after_read f st b)
  = Some (storage_read_sectors (disk st) (IF_MD2 (lun (cur_cmd st)))
            (sector (cur_cmd st))
            (MIN (READ_BUFFER_SIZE ÷ SECTOR_SIZE) (count (cur_cmd st))) b).1.2.
Proof.
  intros Hsel. unfold selected in *. simpl.
  apply list_lookup_insert_eq. by eapply lookup_lt_Some.
Qed.

(** The block after the read takes the state the read left to the
    outcome of the run. *)
Lemma antiforensics_runs (f : source_file) (st : state) (b : buffer) :
  selected st = Some b →
  fragment f st = Some (outcome st b) →
  antiforensics f (after_read f st b)
  = Some ((outcome st b).1, List.tail (outcome st b).2).
Proof.
  intros Hsel Hrun. pose proof (read_runs f st b Hsel) as Hread.
  destruct (listings_agree f) as (Hc & Hr & _ & _ & _ & Ha & Hf).
  rewrite Hf in Hrun. rewrite Hc, Hr in Hread. rewrite Ha.
  unfold war_c.fragment in Hrun. unfold seq at 1 in Hrun.
  unfold seq at 1 in Hread. rewrite range_check_runs in Hrun, Hread.
  unfold seq at 1 in Hrun.
  destruct (war_c.legitimate_read _) as [[st1 t1]|]; [| done].
  simpl in Hread. injection Hread as <- ->.
  destruct (war_c.antiforensics st1) as [[st2 t2]|]; [| done].
  injection Hrun as <-. done.
Qed.

Lemma clobbered_shape (b : buffer) :
  clobbered b
  = with_nul clobber_text
    ++ replicate (Z.to_nat READ_BUFFER_SIZE - length (with_nul clobber_text)) 0xFF
    ++ drop (Z.to_nat READ_BUFFER_SIZE `max` length (with_nul clobber_text)) b.
Proof.
  unfold clobbered.
  rewrite drop_app, drop_replicate, length_replicate, drop_drop.
  do 3 f_equal. lia.
Qed.
End runs.

(** ** The properties of the listing *)

Section claims.
Context `{Platform}.

(** The sector counts the two calls are given, the answer of the
    legitimate read and the two calls themselves, [b] being the bytes
    of the selected buffer when the call is made. *)
Definition read_count (st : state) : Z :=
  MIN (READ_BUFFER_SIZE ÷ SECTOR_SIZE) (count (cur_cmd st)).

Definition write_count (st : state) : Z :=
  MIN (WRITE_BUFFER_SIZE ÷ SECTOR_SIZE) (count (cur_cmd st)).

Definition read_answer (st : state) (b : buffer) : Z * buffer * Disk :=
  storage_read_sectors (disk st) (IF_MD2 (lun (cur_cmd st)))
                       (sector (cur_cmd st)) (read_count st) b.

Definition read_call (st : state) (b : buffer) : call :=
  ReadSectors (IF_MD2 (lun (cur_cmd st))) (sector (cur_cmd st))
              (read_count st) (data_select (cur_cmd st)) b.

Definition write_call (st : state) (b : buffer) : call :=
  WriteSectors (IF_MD2 (lun (cur_cmd st))) (sector (cur_cmd st))
               (write_count st) (data_select (cur_cmd st)) b.

(** A call whose sector count stays within the capacity of the buffer
    it names. *)
Definition clamped (c : call) : Prop :=
  match c with
  | ReadSectors _ _ n _ _ => n ≤ READ_BUFFER_SIZE ÷ SECTOR_SIZE
  | WriteSectors _ _ n _ _ => n ≤ WRITE_BUFFER_SIZE ÷ SECTOR_SIZE
  end.

Lemma MIN_le_l (a b : Z) : MIN a b ≤ a.
Proof. unfold MIN. destruct (a <? b) eqn:E; [lia | apply Z.ltb_ge in E; lia]. Qed.

Lemma MIN_le_r (a b : Z) : MIN a b ≤ b.
Proof. unfold MIN. destruct (a <? b) eqn:E; [apply Z.ltb_lt in E; lia | lia]. Qed.

Lemma geb_decide (s k : Z) : (s >=? k) = bool_decide (k ≤ s).
Proof.
  rewrite Z.geb_leb. case_bool_decide; [by apply Z.leb_le | by apply Z.leb_gt; lia].
Qed.

Lemma outcome_selected (f : source_file) (st : state) (b : buffer) :
  selected st = Some b →
  selected (outcome st b).1
  = Some (if flag_after_check f st then clobbered (read_answer st b).1.2
          else (read_answer st b).1.2).
Proof.
  intros Hsel. rewrite flag_after_check_window. unfold outcome, selected in *.
  destruct (tamperdetected st || _); simpl;
    apply list_lookup_insert_eq; by eapply lookup_lt_Some.
Qed.

Lemma outcome_calls (f : source_file) (st : state) (b : buffer) :
  (outcome st b).2
  = read_call st b
    :: (if flag_after_check f st && (sector (cur_cmd st) >=? 48195)
        then [write_call st (clobbered (read_answer st b).1.2)] else []).
Proof.
  rewrite flag_after_check_window. unfold outcome.
  by destruct (tamperdetected st || _), (sector (cur_cmd st) >=? 48195).
Qed.

(** C1: when [cur_cmd.sector] is at least 10000 and below 48000 the
    listing sets [tamperdetected], and for every other sector it leaves
    the flag as it found it; the flag the range check leaves is the
    flag at the end of the run. *)
Theorem range_check_flag (f : source_file) (st : state) :
  valid f st = true →
  ∃ st1 st' t,
    range_check f st = Some (st1, [])
    ∧ fragment f st = Some (st', t)
    ∧ tamperdetected st1
      = (if decide (10000 ≤ sector (cur_cmd st) < 48000) then true
         else tamperdetected st)
    ∧ tamperdetected st' = tamperdetected st1.
Proof.
  intros Hv. destruct (valid_outcome f st Hv) as (b & Hsel & Hrun).
  exists (State (cur_cmd st) (flag_after_check f st) (i st) (disk st)),
    (outcome st b).1, (outcome st b).2.
  split.
  { destruct (listings_agree f) as (E & _).
    rewrite flag_after_check_window, E. apply range_check_runs. }
  split; [rewrite Hrun; by destruct (outcome st b) |].
  split; [apply flag_after_check_decide |].
  simpl. rewrite flag_after_check_window. unfold outcome.
  by destruct (tamperdetected st || _).
Qed.

(** C2: when the flag is up after the range check, the wipe overwrites
    the first [READ_BUFFER_SIZE] bytes of the selected buffer, as the
    read left it, with [0xFF]; the copy then puts the text and its NUL
    at the start, so that the buffer ends as the text, the NUL, the
    [0xFF] bytes the copy did not reach and the bytes beyond the
    wipe. *)
Theorem wipe_then_text (f : source_file) (st : state) :
  valid f st = true →
  flag_after_check f st = true →
  ∃ b st1 t1 st2 st3 st' t,
    selected st = Some b
    ∧ (range_check f ;; legitimate_read f)%stmt st = Some (st1, t1)
    ∧ selected st1 = Some (read_answer st b).1.2
    ∧ wipe f st1 = Some (st2, [])
    ∧ selected st2
      = Some (replicate (Z.to_nat READ_BUFFER_SIZE) 0xFF
              ++ drop (Z.to_nat READ_BUFFER_SIZE) (read_answer st b).1.2)
    ∧ clobber f st2 = Some (st3, [])
    ∧ selected st3
      = Some (with_nul clobber_text
              ++ replicate (Z.to_nat READ_BUFFER_SIZE
                            - length (with_nul clobber_text)) 0xFF
              ++ drop (Z.to_nat READ_BUFFER_SIZE
                       `max` length (with_nul clobber_text))
                      (read_answer st b).1.2)
    ∧ fragment f st = Some (st', t)
    ∧ selected st' = selected st3.
Proof.
  intros Hv Hflag. destruct (valid_outcome f st Hv) as (b & Hsel & Hrun).
  apply valid_room in Hv as (b0 & Hsel0 & Hroom).
  rewrite Hsel in Hsel0. injection Hsel0 as <-.
  destruct (Hroom Hflag) as [Hw Hs].
  pose proof (after_read_selected f st b Hsel) as Hsel1.
  pose proof (storage_read_sectors_length (disk st) (IF_MD2 (lun (cur_cmd st)))
                (sector (cur_cmd st)) (read_count st) b) as Hlen.
  fold (read_answer st b) in Hsel1, Hlen.
  set (rb := (read_answer st b).1.2) in *.
  assert (Hin : (data_select (cur_cmd st) < length (data (cur_cmd st)))%nat)
    by (unfold selected in Hsel; by eapply lookup_lt_Some).
  destruct (listings_agree f) as (_ & _ & Ew & Ec & _).
  eexists b, _, _, _, _, (outcome st b).1, (outcome st b).2.
  split; [done |].
  split; [by apply read_runs |].
  split; [done |].
  split.
  { rewrite Ew. apply (wipe_runs _ rb); [done |].
    unfold buffer, byte in *; lia. }
  split.
  { unfold selected, set_selected. simpl. rewrite list_insert_insert_eq.
    by apply list_lookup_insert_eq. }
  split.
  { rewrite Ec. eapply clobber_runs.
    - unfold selected, set_selected. simpl. rewrite list_insert_insert_eq.
      by apply list_lookup_insert_eq.
    - rewrite length_app, length_replicate, length_drop.
      unfold buffer, byte in *; lia. }
  split.
  { unfold selected, set_selected. simpl.
    rewrite !list_insert_insert_eq, list_lookup_insert_eq by done.
    f_equal. apply clobbered_shape. }
  split; [rewrite Hrun; by destruct (outcome st b) |].
  rewrite (outcome_selected f) by done. rewrite Hflag.
  unfold selected, set_selected. simpl.
  rewrite !list_insert_insert_eq, list_lookup_insert_eq by done.
  done.
Qed.

(** C3: the listing calls [storage_write_sectors] exactly when the flag
    is up after the range check and [cur_cmd.sector] is at least 48195;
    the call is then made once, for [cur_cmd.sector], with the buffer as
    the wipe and the copy left it.  In every other case no write is
    issued. *)
Theorem write_back_condition (f : source_file) (st : state) :
  valid f st = true →
  ∃ st' t wb,
    fragment f st = Some (st', t)
    ∧ selected st' = Some wb
    ∧ List.filter is_write t
      = if decide (flag_after_check f st = true
                   ∧ 48195 ≤ sector (cur_cmd st))
        then [write_call st wb] else [].
Proof.
  intros Hv. destruct (valid_outcome f st Hv) as (b & Hsel & Hrun).
  eexists (outcome st b).1, (outcome st b).2, _.
  split; [rewrite Hrun; by destruct (outcome st b) |].
  split; [by apply (outcome_selected f) |].
  rewrite (outcome_calls f), geb_decide.
  destruct (flag_after_check f st);
    destruct (bool_decide_reflect (48195 ≤ sector (cur_cmd st))) as [Hs|Hs];
    destruct (decide _) as [[Hf Hd]|Hn]; simpl; try done.
  exfalso. by apply Hn.
Qed.

(** C4: when [tamperdetected] is down on entry no write is issued,
    whatever [cur_cmd.sector] is: the flag goes up only below sector
    48000 and the write-back asks for sector 48195 or more. *)
Theorem no_write_when_flag_down (f : source_file) (st : state) :
  tamperdetected st = false →
  valid f st = true →
  ∃ st' t, fragment f st = Some (st', t) ∧ List.filter is_write t = [].
Proof.
  intros Hdown Hv. destruct (valid_outcome f st Hv) as (b & Hsel & Hrun).
  exists (outcome st b).1, (outcome st b).2.
  split; [rewrite Hrun; by destruct (outcome st b) |].
  rewrite (outcome_calls f), geb_decide, flag_after_check_decide, Hdown.
  case_decide; case_bool_decide; simpl; try done. lia.
Qed.

(** C5: every run calls [storage_read_sectors] exactly once, with the
    logical unit argument [IF_MD2(cur_cmd.lun,)], [cur_cmd.sector], the
    clamped sector count and the selected buffer as it was on entry; the
    call is the first of the run, and the wipe and the write-back work
    on the state the read left. *)
Theorem read_once_first (f : source_file) (st : state) :
  valid f st = true →
  ∃ b st1 st' rest,
    selected st = Some b
    ∧ (range_check f ;; legitimate_read f)%stmt st
      = Some (st1, [read_call st b])
    ∧ selected st1 = Some (read_answer st b).1.2
    ∧ antiforensics f st1 = Some (st', rest)
    ∧ fragment f st = Some (st', read_call st b :: rest)
    ∧ List.filter is_read (read_call st b :: rest) = [read_call st b].
Proof.
  intros Hv. destruct (valid_outcome f st Hv) as (b & Hsel & Hrun).
  exists b, (after_read f st b), (outcome st b).1, (List.tail (outcome st b).2).
  split; [done |].
  split; [by apply read_runs |].
  split; [by apply after_read_selected |].
  split; [by apply antiforensics_runs |].
  split.
  { rewrite Hrun, (surjective_pairing (outcome st b)) at 1.
    by rewrite (outcome_calls f). }
  rewrite (outcome_calls f). simpl.
  by destruct (flag_after_check f st && _).
Qed.

(** C6: the result of the read is stored in [cur_cmd.last_result] and
    is still there when the run ends, whether or not the write-back was
    made. *)
Theorem last_result_is_read_result (f : source_file) (st : state) :
  valid f st = true →
  ∃ b st1 t1 st' t,
    selected st = Some b
    ∧ (range_check f ;; legitimate_read f)%stmt st = Some (st1, t1)
    ∧ last_result (cur_cmd st1) = (read_answer st b).1.1
    ∧ fragment f st = Some (st', t)
    ∧ last_result (cur_cmd st') = (read_answer st b).1.1.
Proof.
  intros Hv. destruct (valid_outcome f st Hv) as (b & Hsel & Hrun).
  eexists b, _, _, (outcome st b).1, (outcome st b).2.
  split; [done |].
  split; [by apply read_runs |].
  split; [done |].
  split; [rewrite Hrun; by destruct (outcome st b) |].
  unfold outcome. by destruct (tamperdetected st || _).
Qed.

(** C7: the listings [war.c] and [war.cpp] are the same program: on
    every platform and from every state they fail together or leave the
    same state, flag, buffers and [last_result] included, after the same
    storage calls. *)
Theorem war_c_war_cpp_agree (st : state) :
  war_c.fragment st = war_cpp.fragment st.
Proof. reflexivity. Qed.

(** C8: when the flag is down after the range check, all the run does
    is the read and the store of its result: one call, the selected
    buffer as the read left it, the device as the read left it, and
    everything else as on entry. *)
Theorem flag_down_only_reads (f : source_file) (st : state) :
  valid f st = true →
  flag_after_check f st = false →
  ∃ b st' t,
    selected st = Some b
    ∧ fragment f st = Some (st', t)
    ∧ t = [read_call st b]
    ∧ selected st' = Some (read_answer st b).1.2
    ∧ st' = State (Command (lun (cur_cmd st)) (sector (cur_cmd st))
                           (count (cur_cmd st)) (data_select (cur_cmd st))
                           (<[data_select (cur_cmd st)
                              := (read_answer st b).1.2]> (data (cur_cmd st)))
                           (read_answer st b).1.1)
                  (tamperdetected st) (i st) (read_answer st b).2.
Proof.
  intros Hv Hflag. destruct (valid_outcome f st Hv) as (b & Hsel & Hrun).
  exists b, (outcome st b).1, (outcome st b).2.
  split; [done |].
  split; [rewrite Hrun; by destruct (outcome st b) |].
  split; [by rewrite (outcome_calls f), Hflag |].
  split; [by rewrite (outcome_selected f), Hflag |].
  rewrite flag_after_check_window in Hflag. unfold outcome. rewrite Hflag.
  apply orb_false_iff in Hflag as [-> _]. done.
Qed.

(** C9: whatever [cur_cmd.count] is, the read is asked for at most
    [READ_BUFFER_SIZE/SECTOR_SIZE] sectors and the write for at most
    [WRITE_BUFFER_SIZE/SECTOR_SIZE]: both counts go through [MIN]. *)
Theorem counts_clamped (f : source_file) (st : state) :
  valid f st = true →
  ∃ st' t, fragment f st = Some (st', t) ∧ Forall clamped t.
Proof.
  intros Hv. destruct (valid_outcome f st Hv) as (b & Hsel & Hrun).
  exists (outcome st b).1, (outcome st b).2.
  split; [rewrite Hrun; by destruct (outcome st b) |].
  rewrite (outcome_calls f).
  destruct (flag_after_check f st && _);
    repeat constructor; apply MIN_le_l.
Qed.

(** C10: a run leaves [cur_cmd.sector], [cur_cmd.count],
    [cur_cmd.data_select] and [cur_cmd.lun] as they were, and of the
    buffers of [cur_cmd.data] it changes the selected one only. *)
Theorem command_frame (f : source_file) (st : state) :
  valid f st = true →
  ∃ st' t b',
    fragment f st = Some (st', t)
    ∧ sector (cur_cmd st') = sector (cur_cmd st)
    ∧ count (cur_cmd st') = count (cur_cmd st)
    ∧ data_select (cur_cmd st') = data_select (cur_cmd st)
    ∧ lun (cur_cmd st') = lun (cur_cmd st)
    ∧ data (cur_cmd st')
      = <[data_select (cur_cmd st) := b']> (data (cur_cmd st)).
Proof.
  intros Hv. destruct (valid_outcome f st Hv) as (b & Hsel & Hrun).
  exists (outcome st b).1, (outcome st b).2,
    (if flag_after_check f st then clobbered (read_answer st b).1.2
     else (read_answer st b).1.2).
  split; [rewrite Hrun; by destruct (outcome st b) |].
  rewrite flag_after_check_window. unfold outcome.
  destruct (tamperdetected st || _); simpl; by repeat split.
Qed.
End claims.

(** ** Further properties of the listing *)

Section further.
Context `{Platform}.

Lemma run_outcome (f : source_file) (st st' : state) (t : list call) :
  fragment f st = Some (st', t) →
  ∃ b, selected st = Some b ∧ valid f st = true
       ∧ st' = (outcome st b).1 ∧ t = (outcome st b).2.
Proof.
  intros Hrun.
  assert (Hv : valid f st = true) by (apply valid_defined; by rewrite Hrun).
  destruct (valid_outcome f st Hv) as (b & Hsel & Ho).
  rewrite Ho in Hrun. injection Hrun as E. exists b. by rewrite E.
Qed.

Lemma clobbered_length (b : buffer) :
  (Z.to_nat READ_BUFFER_SIZE ≤ length b)%nat →
  (length (with_nul clobber_text) ≤ length b)%nat →
  length (clobbered b) = length b.
Proof.
  intros Hw Hs. unfold clobbered.
  rewrite length_app, length_drop, length_app, length_replicate, length_drop.
  unfold buffer, byte in *; lia.
Qed.

Lemma read_answer_length (st : state) (b : buffer) :
  length (read_answer st b).1.2 = length b.
Proof. apply storage_read_sectors_length. Qed.

Lemma outcome_flag (f : source_file) (st : state) (b : buffer) :
  tamperdetected (outcome st b).1 = flag_after_check f st.
Proof.
  rewrite flag_after_check_window. unfold outcome.
  by destruct (tamperdetected st || _).
Qed.


(** X2: the flag is never lowered, so a run on a sector of the watched
    window arms every later run: with the flag carried over, a run on a
    sector of 48195 or more wipes its buffer and issues exactly one
    write, of a buffer that starts with the text. *)
Theorem earlier_run_arms_write_back (f : source_file) (st st' st2 : state)
    (t : list call) :
  fragment f st = Some (st', t) →
  10000 ≤ sector (cur_cmd st) < 48000 →
  tamperdetected st2 = tamperdetected st' →
  48195 ≤ sector (cur_cmd st2) →
  valid f st2 = true →
  ∃ st2' t2 wb,
    fragment f st2 = Some (st2', t2)
    ∧ selected st2' = Some wb
    ∧ take (length (with_nul clobber_text)) wb = with_nul clobber_text
    ∧ List.filter is_write t2 = [write_call st2 wb].
Proof.
  intros Hrun Hwin Hcarry Hsec Hv2.
  destruct (run_outcome f st st' t Hrun) as (b & _ & _ & -> & _).
  rewrite (outcome_flag f), flag_after_check_decide in Hcarry.
  destruct (decide _) as [_|Hn]; [| done].
  assert (Hf2 : flag_after_check f st2 = true).
  { rewrite flag_after_check_window, Hcarry. done. }
  destruct (valid_outcome f st2 Hv2) as (b2 & Hsel2 & Hrun2).
  exists (outcome st2 b2).1, (outcome st2 b2).2,
    (clobbered (read_answer st2 b2).1.2).
  split; [rewrite Hrun2; by destruct (outcome st2 b2) |].
  split; [by rewrite (outcome_selected f), Hf2 |].
  split; [unfold clobbered; by rewrite take_app_length |].
  rewrite (outcome_calls f), Hf2, geb_decide.
  case_bool_decide; [done | lia].
Qed.

(** X3: the device ends as the read left it, or, when the write-back is
    made, as the write left the device the read had left: the write
    follows the read on the device as well. *)
Theorem device_after_run (f : source_file) (st : state) :
  valid f st = true →
  ∃ b st' t wb,
    selected st = Some b
    ∧ fragment f st = Some (st', t)
    ∧ selected st' = Some wb
    ∧ disk st'
      = if decide (flag_after_check f st = true ∧ 48195 ≤ sector (cur_cmd st))
        then (storage_write_sectors (read_answer st b).2
                (IF_MD2 (lun (cur_cmd st))) (sector (cur_cmd st))
                (write_count st) wb).2
        else (read_answer st b).2.
Proof.
  intros Hv. destruct (valid_outcome f st Hv) as (b & Hsel & Hrun).
  eexists b, (outcome st b).1, (outcome st b).2, _.
  split; [done |].
  split; [rewrite Hrun; by destruct (outcome st b) |].
  split; [by apply (outcome_selected f) |].
  rewrite flag_after_check_window. unfold outcome.
  rewrite (geb_decide (sector (cur_cmd st)) 48195).
  destruct (tamperdetected st || _);
    destruct (bool_decide_reflect (48195 ≤ sector (cur_cmd st))) as [Hs|Hs];
    destruct (decide _) as [[Hf Hd]|Hn]; simpl; try done.
  exfalso. by apply Hn.
Qed.

(** X4: the wipe leaves the loop variable [i] at [READ_BUFFER_SIZE], or
    at 0 when that constant is negative; a run that does not wipe leaves
    [i] alone. *)
Theorem loop_variable_after_run (f : source_file) (st : state) :
  valid f st = true →
  ∃ st' t,
    fragment f st = Some (st', t)
    ∧ i st' = if flag_after_check f st then Z.max 0 READ_BUFFER_SIZE
              else i st.
Proof.
  intros Hv. destruct (valid_outcome f st Hv) as (b & Hsel & Hrun).
  exists (outcome st b).1, (outcome st b).2.
  split; [rewrite Hrun; by destruct (outcome st b) |].
  rewrite flag_after_check_window. unfold outcome.
  destruct (tamperdetected st || _); simpl; [lia | done].
Qed.

(** X5: a run keeps the number of buffers of [cur_cmd.data] and the
    length of the selected one: the wipe and the copy write inside the
    buffer and never grow or shrink it. *)
Theorem buffer_sizes_kept (f : source_file) (st : state) :
  valid f st = true →
  ∃ b st' t b',
    selected st = Some b
    ∧ fragment f st = Some (st', t)
    ∧ selected st' = Some b'
    ∧ length b' = length b
    ∧ length (data (cur_cmd st')) = length (data (cur_cmd st)).
Proof.
  intros Hv. destruct (valid_outcome f st Hv) as (b & Hsel & Hrun).
  apply valid_room in Hv as (b0 & Hsel0 & Hroom).
  rewrite Hsel in Hsel0. injection Hsel0 as <-.
  eexists b, (outcome st b).1, (outcome st b).2, _.
  split; [done |].
  split; [rewrite Hrun; by destruct (outcome st b) |].
  split; [by apply (outcome_selected f) |].
  split.
  - destruct (flag_after_check f st).
    + destruct (Hroom eq_refl) as [Hw Hs].
      rewrite clobbered_length; rewrite read_answer_length; done.
    + apply read_answer_length.
  - unfold outcome. destruct (tamperdetected st || _); simpl;
      apply length_insert.
Qed.

(** X6: a run ends in a state from which the listing is defined again:
    the flag it leaves is the flag the next range check leaves, and the
    selected buffer has kept its room. *)
Theorem valid_after_run (f : source_file) (st : state) :
  valid f st = true →
  ∃ st' t,
    fragment f st = Some (st', t)
    ∧ flag_after_check f st' = flag_after_check f st
    ∧ valid f st' = true.
Proof.
  intros Hv. destruct (valid_outcome f st Hv) as (b & Hsel & Hrun).
  pose proof Hv as (b0 & Hsel0 & Hroom)%valid_room.
  rewrite Hsel in Hsel0. injection Hsel0 as <-.
  exists (outcome st b).1, (outcome st b).2.
  split; [rewrite Hrun; by destruct (outcome st b) |].
  assert (Hflag : flag_after_check f (outcome st b).1 = flag_after_check f st).
  { rewrite (flag_after_check_window f (outcome st b).1), (outcome_flag f).
    assert (Hsec : sector (cur_cmd (outcome st b).1) = sector (cur_cmd st))
      by (unfold outcome; by destruct (tamperdetected st || _)).
    rewrite Hsec, flag_after_check_window.
    by destruct (tamperdetected st), (_ && _). }
  split; [done |].
  apply valid_room. eexists. split; [by apply (outcome_selected f) |].
  rewrite Hflag. intros Hf. rewrite Hf.
  destruct (Hroom Hf) as [Hw Hs].
  rewrite clobbered_length; rewrite read_answer_length; done.
Qed.

(** X7: when the flag is up after the range check and the selected
    buffer is exactly [READ_BUFFER_SIZE] bytes long, nothing the read
    delivered is left: the buffer ends as the text, its NUL and [0xFF]
    up to the end, whatever the device answered. *)
Theorem nothing_read_survives (f : source_file) (st : state) :
  valid f st = true →
  flag_after_check f st = true →
  length <$> selected st = Some (Z.to_nat READ_BUFFER_SIZE) →
  ∃ st' t,
    fragment f st = Some (st', t)
    ∧ selected st'
      = Some (with_nul clobber_text
              ++ replicate (Z.to_nat READ_BUFFER_SIZE
                            - length (with_nul clobber_text)) 0xFF).
Proof.
  intros Hv Hflag Hlen. destruct (valid_outcome f st Hv) as (b & Hsel & Hrun).
  apply valid_room in Hv as (b0 & Hsel0 & Hroom).
  rewrite Hsel in Hsel0. injection Hsel0 as <-.
  rewrite Hsel in Hlen. injection Hlen as Hlen.
  destruct (Hroom Hflag) as [_ Hs].
  exists (outcome st b).1, (outcome st b).2.
  split; [rewrite Hrun; by destruct (outcome st b) |].
  rewrite (outcome_selected f), Hflag, clobbered_shape by done.
  rewrite drop_ge, app_nil_r; [done |].
  rewrite read_answer_length. unfold buffer, byte in *; lia.
Qed.
End further.

(** ** The properties at work on the small device *)

Section witnesses.
#[local] Existing Instance demo.platform.

Lemma range_check_flag_witness :
  valid War_c demo.watched = true
  ∧ (∃ st1 st' t,
       range_check War_c demo.watched = Some (st1, [])
       ∧ fragment War_c demo.watched = Some (st', t)
       ∧ tamperdetected st1
         = (if decide (10000 ≤ sector (cur_cmd demo.watched) < 48000) then true
            else tamperdetected demo.watched)
       ∧ tamperdetected st' = tamperdetected st1).
Proof.
  split; [reflexivity |].
  exact (range_check_flag War_c demo.watched eq_refl).
Defined.

Lemma wipe_then_text_witness :
  valid War_cpp demo.watched = true
  ∧ flag_after_check War_cpp demo.watched = true
  ∧ (∃ b st1 t1 st2 st3 st' t,
       selected demo.watched = Some b
       ∧ (range_check War_cpp ;; legitimate_read War_cpp)%stmt demo.watched
         = Some (st1, t1)
       ∧ selected st1 = Some (read_answer demo.watched b).1.2
       ∧ wipe War_cpp st1 = Some (st2, [])
       ∧ selected st2
         = Some (replicate (Z.to_nat READ_BUFFER_SIZE) 0xFF
                 ++ drop (Z.to_nat READ_BUFFER_SIZE) (read_answer demo.watched b).1.2)
       ∧ clobber War_cpp st2 = Some (st3, [])
       ∧ selected st3
         = Some (with_nul clobber_text
                 ++ replicate (Z.to_nat READ_BUFFER_SIZE
                               - length (with_nul clobber_text)) 0xFF
                 ++ drop (Z.to_nat READ_BUFFER_SIZE
                          `max` length (with_nul clobber_text))
                         (read_answer demo.watched b).1.2)
       ∧ fragment War_cpp demo.watched = Some (st', t)
       ∧ selected st' = selected st3).
Proof.
  split; [reflexivity |].
  split; [reflexivity |].
  exact (wipe_then_text War_cpp demo.watched eq_refl eq_refl).
Defined.

Lemma write_back_condition_witness :
  valid War_c demo.flagged = true
  ∧ (∃ st' t wb,
       fragment War_c demo.flagged = Some (st', t)
       ∧ selected st' = Some wb
       ∧ List.filter is_write t
         = if decide (flag_after_check War_c demo.flagged = true
                      ∧ 48195 ≤ sector (cur_cmd demo.flagged))
           then [write_call demo.flagged wb] else []).
Proof.
  split; [reflexivity |].
  exact (write_back_condition War_c demo.flagged eq_refl).
Defined.

Lemma no_write_when_flag_down_witness :
  tamperdetected demo.beyond = false
  ∧ valid War_cpp demo.beyond = true
  ∧ (∃ st' t, fragment War_cpp demo.beyond = Some (st', t) ∧ List.filter is_write t = []).
Proof.
  split; [reflexivity |].
  split; [reflexivity |].
  exact (no_write_when_flag_down War_cpp demo.beyond eq_refl eq_refl).
Defined.

Lemma read_once_first_witness :
  valid War_c demo.flagged = true
  ∧ (∃ b st1 st' rest,
       selected demo.flagged = Some b
       ∧ (range_check War_c ;; legitimate_read War_c)%stmt demo.flagged
         = Some (st1, [read_call demo.flagged b])
       ∧ selected st1 = Some (read_answer demo.flagged b).1.2
       ∧ antiforensics War_c st1 = Some (st', rest)
       ∧ fragment War_c demo.flagged = Some (st', read_call demo.flagged b :: rest)
       ∧ List.filter is_read (read_call demo.flagged b :: rest) = [read_call demo.flagged b]).
Proof.
  split; [reflexivity |].
  exact (read_once_first War_c demo.flagged eq_refl).
Defined.

Lemma last_result_is_read_result_witness :
  valid War_cpp demo.flagged = true
  ∧ (∃ b st1 t1 st' t,
       selected demo.flagged = Some b
       ∧ (range_check War_cpp ;; legitimate_read War_cpp)%stmt demo.flagged
         = Some (st1, t1)
       ∧ last_result (cur_cmd st1) = (read_answer demo.flagged b).1.1
       ∧ fragment War_cpp demo.flagged = Some (st', t)
       ∧ last_result (cur_cmd st') = (read_answer demo.flagged b).1.1).
Proof.
  split; [reflexivity |].
  exact (last_result_is_read_result War_cpp demo.flagged eq_refl).
Defined.

Lemma flag_down_only_reads_witness :
  valid War_c demo.beyond = true
  ∧ flag_after_check War_c demo.beyond = false
  ∧ (∃ b st' t,
       selected demo.beyond = Some b
       ∧ fragment War_c demo.beyond = Some (st', t)
       ∧ t = [read_call demo.beyond b]
       ∧ selected st' = Some (read_answer demo.beyond b).1.2
       ∧ st' = State (Command (lun (cur_cmd demo.beyond)) (sector (cur_cmd demo.beyond))
                              (count (cur_cmd demo.beyond)) (data_select (cur_cmd demo.beyond))
                              (<[data_select (cur_cmd demo.beyond)
                                 := (read_answer demo.beyond b).1.2]> (data (cur_cmd demo.beyond)))
                              (read_answer demo.beyond b).1.1)
                     (tamperdetected demo.beyond) (i demo.beyond) (read_answer demo.beyond b).2).
Proof.
  split; [reflexivity |].
  split; [reflexivity |].
  exact (flag_down_only_reads War_c demo.beyond eq_refl eq_refl).
Defined.

Lemma counts_clamped_witness :
  valid War_cpp demo.flagged = true
  ∧ (∃ st' t, fragment War_cpp demo.flagged = Some (st', t) ∧ Forall clamped t).
Proof.
  split; [reflexivity |].
  exact (counts_clamped War_cpp demo.flagged eq_refl).
Defined.

Lemma command_frame_witness :
  valid War_c demo.watched = true
  ∧ (∃ st' t b',
       fragment War_c demo.watched = Some (st', t)
       ∧ sector (cur_cmd st') = sector (cur_cmd demo.watched)
       ∧ count (cur_cmd st') = count (cur_cmd demo.watched)
       ∧ data_select (cur_cmd st') = data_select (cur_cmd demo.watched)
       ∧ lun (cur_cmd st') = lun (cur_cmd demo.watched)
       ∧ data (cur_cmd st')
         = <[data_select (cur_cmd demo.watched) := b']> (data (cur_cmd demo.watched))).
Proof.
  split; [reflexivity |].
  exact (command_frame War_c demo.watched eq_refl).
Defined.

(** The state the run from [demo.watched] leaves. *)
Definition watched_after : @state demo.platform :=
  State (Command 0 20000 2 0
           [with_nul clobber_text ++ replicate 6 0xFF; demo.blank] 0)
        true 32 [(20000, [1; 2; 3; 4; 5; 6; 7; 8])].

Lemma earlier_run_arms_write_back_witness :
  fragment War_c demo.watched
  = Some (watched_after, [ReadSectors 0 20000 2 0 demo.blank])
  ∧ 10000 ≤ sector (cur_cmd demo.watched) < 48000
  ∧ tamperdetected demo.flagged = tamperdetected watched_after
  ∧ 48195 ≤ sector (cur_cmd demo.flagged)
  ∧ valid War_c demo.flagged = true
  ∧ (∃ st2' t2 wb,
       fragment War_c demo.flagged = Some (st2', t2)
       ∧ selected st2' = Some wb
       ∧ take (length (with_nul clobber_text)) wb = with_nul clobber_text
       ∧ List.filter is_write t2 = [write_call demo.flagged wb]).
Proof.
  split; [reflexivity |].
  split; [simpl; lia |].
  split; [reflexivity |].
  split; [simpl; lia |].
  split; [reflexivity |].
  apply (earlier_run_arms_write_back War_c demo.watched watched_after
           demo.flagged [ReadSectors 0 20000 2 0 demo.blank]);
    [reflexivity | simpl; lia | reflexivity | simpl; lia | reflexivity].
Defined.

Lemma device_after_run_witness :
  valid War_c demo.flagged = true
  ∧ (∃ b st' t wb,
       selected demo.flagged = Some b
       ∧ fragment War_c demo.flagged = Some (st', t)
       ∧ selected st' = Some wb
       ∧ disk st'
         = if decide (flag_after_check War_c demo.flagged = true ∧ 48195 ≤ sector (cur_cmd demo.flagged))
           then (storage_write_sectors (read_answer demo.flagged b).2
                   (IF_MD2 (lun (cur_cmd demo.flagged))) (sector (cur_cmd demo.flagged))
                   (write_count demo.flagged) wb).2
           else (read_answer demo.flagged b).2).
Proof.
  split; [reflexivity |].
  exact (device_after_run War_c demo.flagged eq_refl).
Defined.

Lemma loop_variable_after_run_witness :
  valid War_cpp demo.watched = true
  ∧ (∃ st' t,
       fragment War_cpp demo.watched = Some (st', t)
       ∧ i st' = if flag_after_check War_cpp demo.watched then Z.max 0 READ_BUFFER_SIZE
                 else i demo.watched).
Proof.
  split; [reflexivity |].
  exact (loop_variable_after_run War_cpp demo.watched eq_refl).
Defined.

Lemma buffer_sizes_kept_witness :
  valid War_c demo.flagged = true
  ∧ (∃ b st' t b',
       selected demo.flagged = Some b
       ∧ fragment War_c demo.flagged = Some (st', t)
       ∧ selected st' = Some b'
       ∧ length b' = length b
       ∧ length (data (cur_cmd st')) = length (data (cur_cmd demo.flagged))).
Proof.
  split; [reflexivity |].
  exact (buffer_sizes_kept War_c demo.flagged eq_refl).
Defined.

Lemma valid_after_run_witness :
  valid War_cpp demo.watched = true
  ∧ (∃ st' t,
       fragment War_cpp demo.watched = Some (st', t)
       ∧ flag_after_check War_cpp st' = flag_after_check War_cpp demo.watched
       ∧ valid War_cpp st' = true).
Proof.
  split; [reflexivity |].
  exact (valid_after_run War_cpp demo.watched eq_refl).
Defined.

Lemma nothing_read_survives_witness :
  valid War_c demo.watched = true
  ∧ flag_after_check War_c demo.watched = true
  ∧ length <$> selected demo.watched = Some (Z.to_nat READ_BUFFER_SIZE)
  ∧ (∃ st' t,
       fragment War_c demo.watched = Some (st', t)
       ∧ selected st'
         = Some (with_nul clobber_text
                 ++ replicate (Z.to_nat READ_BUFFER_SIZE
                               - length (with_nul clobber_text)) 0xFF)).
Proof.
  split; [reflexivity |].
  split; [reflexivity |].
  split; [reflexivity |].
  exact (nothing_read_survives War_c demo.watched eq_refl eq_refl eq_refl).
Defined.

(** Runs of the listing on the small device. *)
Example watched_run :
  fragment War_c demo.watched
  = Some (State (Command 0 20000 2 0
                   [with_nul clobber_text ++ replicate 6 0xFF; demo.blank] 0)
                true 32 [(20000, [1; 2; 3; 4; 5; 6; 7; 8])],
          [ReadSectors 0 20000 2 0 demo.blank]).
Proof. reflexivity. Qed.

Example beyond_run :
  fragment War_cpp demo.beyond
  = Some (State (Command 0 50000 9 0
                   [[1; 2; 3; 4; 5; 6; 7; 8] ++ replicate 24 0; demo.blank] 0)
                false 0 [(50000, [1; 2; 3; 4; 5; 6; 7; 8])],
          [ReadSectors 0 50000 4 0 demo.blank]).
Proof. reflexivity. Qed.

Example flagged_run_calls :
  snd <$> fragment War_c demo.flagged
  = Some [ReadSectors 0 50000 4 0 demo.blank;
          WriteSectors 0 50000 4 0
            (with_nul clobber_text ++ replicate 6 0xFF)].
Proof. reflexivity. Qed.

(** A buffer of thirty bytes is too short for the wipe. *)
Example short_buffer_run :
  fragment War_c
    (@State demo.platform (Command 0 20000 1 0 [replicate 30 0] 7) false 0 [])
  = None.
Proof. reflexivity. Qed.
End witnesses.
